(** * brack: the filter/transform pipeline of [new_file.py]

    A shallow embedding of [process_data] and of the skeleton class
    [DataProcessor], at three levels of detail:

    - [process_data]: the loop of the source on pure callbacks;
    - [process_data_run]: the same loop on callbacks that may raise and that
      may change a state of their own;
    - [process_data_heap]: the same loop on a store of list objects, where the
      input and the accumulator are references.

    The levels are related by [process_data_run_pure] and
    [for_loop_heap_spec]. *)

From stdpp Require Import gmap strings list fin_maps.
From Stdlib Require Import ZArith.

(** ** The loop on pure callbacks *)

Section Pure.
Context {T U : Type}.
Variable filter_func : T -> bool.
Variable transform_func : T -> U.

(** The body of [for item in data_list], with the accumulator
    [filtered_data] threaded through; [filtered_data.append(transformed)]
    adds at the end.  [filter_func] gives the truth value that
    [if filter_func(item):] tests. *)
Fixpoint for_loop (filtered_data : list U) (data_list : list T) : list U :=
  match data_list with
  | [] => filtered_data
  | item :: rest =>
      if filter_func item then
        let transformed := transform_func item in
        for_loop (filtered_data ++ [transformed]) rest
      else for_loop filtered_data rest
  end.
End Pure.

(** [def process_data(data_list,filter_func,transform_func)]: the
    accumulator starts empty and is returned after the loop. *)
Definition process_data {T U : Type}
    (data_list : list T) (filter_func : T -> bool) (transform_func : T -> U)
    : list U :=
  let filtered_data := [] in
  for_loop filter_func transform_func filtered_data data_list.

(** ** Callbacks that raise and that have state

    A Python call either returns a value or raises; a callback may also
    change state it has captured.  [M S E A] is a computation over a state
    [S] that ends in a value of [A] or in an exception of [E]; the state
    reached when the exception was raised is kept, as in Python. *)

Inductive Except (E A : Type) : Type :=
  | Raise (e : E)
  | Return (a : A).
Arguments Raise {E A} e.
Arguments Return {E A} a.

Definition M (S E A : Type) : Type := S -> Except E A * S.

Definition ret {S E A} (a : A) : M S E A := fun s => (Return a, s).

Definition raise {S E A} (e : E) : M S E A := fun s => (Raise e, s).

Definition bind {S E A B} (m : M S E A) (k : A -> M S E B) : M S E B :=
  fun s =>
    match m s with
    | (Raise e, s') => (Raise e, s')
    | (Return a, s') => k a s'
    end.

Declare Scope exc_scope.
Delimit Scope exc_scope with exc.
Notation "x <- c1 ;; c2" := (bind c1 (fun x => c2))
  (at level 100, c1 at next level, right associativity) : exc_scope.

(** A callback without effects, seen as a computation. *)
Definition pure_callback {S E A B} (f : A -> B) : A -> M S E B :=
  fun x => ret (f x).

Section Run.
Context {S E T U : Type}.
Variable filter_func : T -> M S E bool.
Variable transform_func : T -> M S E U.

(** The loop of [process_data]; [filter_func] yields the truth value that
    [if filter_func(item):] tests.  An exception of either callback leaves
    the loop at once, by [bind]. *)
Fixpoint for_loop_run (filtered_data : list U) (data_list : list T)
    : M S E (list U) :=
  match data_list with
  | [] => ret filtered_data
  | item :: rest =>
      (accepted <- filter_func item ;;
       if accepted : bool then
         transformed <- transform_func item ;;
         for_loop_run (filtered_data ++ [transformed]) rest
       else for_loop_run filtered_data rest)%exc
  end.
End Run.

Definition process_data_run {S E T U : Type}
    (data_list : list T)
    (filter_func : T -> M S E bool) (transform_func : T -> M S E U)
    : M S E (list U) :=
  let filtered_data := [] in
  for_loop_run filter_func transform_func filtered_data data_list.

(** ** List objects in a store

    Python lists are mutable objects reached through references.  The store
    maps a reference to the contents of its list; [for item in data_list]
    keeps an index into the list object and stops when the index is past
    the end, reading the store anew at every step. *)

Abbreviation loc := positive (only parsing).
Abbreviation heap V := (gmap positive (list V)) (only parsing).

Section Heap.
Context {V : Type}.
Variable filter_func : V -> bool.
Variable transform_func : V -> V.

(** [lst.append(x)] on the object at [o]. *)
Definition list_append (h : heap V) (o : loc) (x : V) : option (heap V) :=
  match h !! o with
  | Some l => Some (<[o := l ++ [x]]> h)
  | None => None
  end.

(** The loop over the object at [data_list], appending to the object at
    [filtered_data]; [i] is the position of the list iterator.  [None]
    stands for a run that needs more than [fuel] steps or that follows a
    reference to no object. *)
Fixpoint for_loop_heap (fuel : nat) (h : heap V)
    (data_list filtered_data : loc) (i : nat) : option (heap V) :=
  match fuel with
  | O => None
  | Datatypes.S fuel' =>
      match h !! data_list with
      | None => None
      | Some l =>
          match l !! i with
          | None => Some h
          | Some item =>
              if filter_func item then
                let transformed := transform_func item in
                match list_append h filtered_data transformed with
                | Some h' =>
                    for_loop_heap fuel' h' data_list filtered_data
                      (Datatypes.S i)
                | None => None
                end
              else
                for_loop_heap fuel' h data_list filtered_data
                  (Datatypes.S i)
          end
      end
  end.

(** [filtered_data=[]] allocates a new list object; the call returns the
    reference to it together with the store. *)
Definition process_data_heap (fuel : nat) (h : heap V) (data_list : loc)
    : option (heap V * loc) :=
  let filtered_data := fresh (dom h) in
  match for_loop_heap fuel (<[filtered_data := []]> h)
          data_list filtered_data 0 with
  | Some h' => Some (h', filtered_data)
  | None => None
  end.
End Heap.

(** ** The class [DataProcessor] *)

Module DataProcessor.

(** Python values, as far as the class handles them. *)
#[warnings="-register-all"]
Inductive value : Type :=
  | VNone
  | VBool (b : bool)
  | VInt (n : Z)
  | VStr (s : string)
  | VList (l : list value)
  | VMethod (name : string).

Inductive exn : Type :=
  | AttributeError (name : string)
  | Raised (payload : value).

(** An instance: the two attributes that [__init__] binds, and in [attrs]
    whatever else attribute lookup finds on it before it comes to the names
    of the class body: attributes set on the object from outside
    ([obj.validate = f]) and names that a subclass defines.  Rebinding or
    deleting [config] or [results] is not modelled. *)
Record instance : Type := mk_instance {
  config : value;
  results : list value;
  attrs : gmap string value
}.

(** [DataProcessor(config)]: the object has the two attributes that
    [__init__] binds and no other. *)
Definition __init__ (config : value) : instance :=
  {| config := config; results := []; attrs := ∅ |}.

(** The names that the class body defines. *)
Definition class_dict : list string := ["__init__"; "process"].

(** [self.name]: the attributes of the instance, those set from outside or
    by a subclass, then the names of the class body; a name found in none
    of them raises [AttributeError].  The special names that every object
    has from [object] ([__class__], [__doc__] and the like) are left out:
    the class body looks up none of them. *)
Definition getattr (name : string) : M instance exn value :=
  fun self =>
    if decide (name = "config") then (Return (config self), self)
    else if decide (name = "results") then
      (Return (VList (results self)), self)
    else
      match attrs self !! name with
      | Some v => (Return v, self)
      | None =>
          if decide (name ∈ class_dict) then (Return (VMethod name), self)
          else (Raise (AttributeError name), self)
      end.

(** [self.results.append(x)]. *)
Definition results_append (x : value) : M instance exn unit :=
  fun self =>
    (Return tt,
     {| config := config self;
        results := results self ++ [x];
        attrs := attrs self |}).

(** Truth value of an object, as [if] takes it. *)
Definition truthy (v : value) : bool :=
  match v with
  | VNone => false
  | VBool b => b
  | VInt n => negb (n =? 0)%Z
  | VStr s => negb (String.eqb s EmptyString)
  | VList l => match l with [] => false | _ => true end
  | VMethod _ => true
  end.

Section Process.
(** What calling an object on one argument does; the class calls only
    attributes of [self], which may change [self]. *)
Variable call : value -> value -> M instance exn value.

Fixpoint process_loop (data : list value) : M instance exn value :=
  match data with
  | [] => ret VNone
  | item :: rest =>
      (validate <- getattr "validate" ;;
       ok <- call validate item ;;
       if truthy ok then
         transform <- getattr "transform" ;;
         processed <- call transform item ;;
         _ <- results_append processed ;;
         process_loop rest
       else process_loop rest)%exc
  end.

(** [def process(self,data)]; a method without [return] gives [None]. *)
Definition process (data : list value) : M instance exn value :=
  process_loop data.
End Process.

(** An instance on which [validate] is defined, as by
    [class Checked(DataProcessor): def validate(self,item): return False],
    and the calls of that method. *)
Definition with_validate : instance :=
  {| config := VNone;
     results := [];
     attrs := {[ "validate" := VMethod "validate" ]} |}.

Definition call_rejecting : value -> value -> M instance exn value :=
  fun _ _ => ret (VBool false).

End DataProcessor.

(** ** Callbacks for the examples *)

(** A predicate and two transforms on integers for the examples: the
    transform [times_ten_logged] records its arguments in the state and
    raises on [bad]. *)
Definition is_even (x : Z) : bool := (x mod 2 =? 0)%Z.

Definition times_ten (x : Z) : Z := (x * 10)%Z.

Definition times_ten_logged (bad : Z) (x : Z) : M (list Z) string Z :=
  fun log =>
    if (x =? bad)%Z then (Raise "boom", log ++ [x])
    else (Return (x * 10)%Z, log ++ [x]).

(** A predicate with state: it counts its calls and accepts on the calls
    of even number, whatever the element is. *)
Definition every_other (x : Z) : M nat string bool :=
  fun n => (Return (Nat.even n), Datatypes.S n).

(** ** Callbacks that record their calls

    The calls that a run of [process_data] makes, seen from callbacks that
    append to a log each time they are entered. *)

Inductive event (T : Type) : Type :=
  | CalledFilter (x : T)
  | CalledTransform (x : T).
Arguments CalledFilter {T} x.
Arguments CalledTransform {T} x.

Definition logged_filter {E T : Type} (p : T -> bool)
    : T -> M (list (event T)) E bool :=
  fun x log => (Return (p x), log ++ [CalledFilter x]).

Definition logged_transform {E T U : Type} (t : T -> U)
    : T -> M (list (event T)) E U :=
  fun x log => (Return (t x), log ++ [CalledTransform x]).

(** The calls that one pass of the loop body makes on [x]. *)
Definition calls_of {T : Type} (p : T -> bool) (x : T) : list (event T) :=
  if p x then [CalledFilter x; CalledTransform x] else [CalledFilter x].

(** ** Helper lemmas on the pure loop *)

Section PureFacts.
Context {T U : Type}.
Implicit Types (p : T -> bool) (t : T -> U) (acc : list U) (l : list T).

Lemma for_loop_acc p t l : forall acc,
  for_loop p t acc l = acc ++ for_loop p t [] l.
Proof.
  induction l as [|x l IH]; intros acc; simpl.
  - by rewrite app_nil_r.
  - destruct (p x).
    + rewrite (IH (acc ++ [t x])), (IH [t x]). by rewrite <- app_assoc.
    + apply IH.
Qed.

Lemma for_loop_app p t l1 l2 acc :
  for_loop p t acc (l1 ++ l2) = for_loop p t (for_loop p t acc l1) l2.
Proof.
  revert acc. induction l1 as [|x l1 IH]; intros acc; simpl; [done|].
  destruct (p x); apply IH.
Qed.

Lemma process_data_cons p t x l :
  process_data (x :: l) p t =
  if p x then t x :: process_data l p t else process_data l p t.
Proof.
  unfold process_data; simpl. destruct (p x); [|done].
  by rewrite for_loop_acc.
Qed.

Lemma process_data_concat p t l1 l2 :
  process_data (l1 ++ l2) p t = process_data l1 p t ++ process_data l2 p t.
Proof.
  unfold process_data. rewrite for_loop_app. apply for_loop_acc.
Qed.

Lemma process_data_map_filter p t l :
  process_data l p t = List.map t (List.filter p l).
Proof.
  induction l as [|x l IH]; [done|].
  rewrite process_data_cons; simpl. destruct (p x); simpl; by rewrite IH.
Qed.
End PureFacts.

(** ** Helper lemmas on the loop with effects *)

Section RunFacts.
Context {S E T U : Type}.
Implicit Types (f : T -> M S E bool) (g : T -> M S E U).
Implicit Types (acc : list U) (l : list T) (s : S).

Lemma bind_raise {A B} (m : M S E A) (k : A -> M S E B) s e s' :
  m s = (Raise e, s') -> bind m k s = (Raise e, s').
Proof. unfold bind. by intros ->. Qed.

Lemma bind_return {A B} (m : M S E A) (k : A -> M S E B) s a s' :
  m s = (Return a, s') -> bind m k s = k a s'.
Proof. unfold bind. by intros ->. Qed.

Lemma bind_assoc {A B C} (m : M S E A) (k : A -> M S E B)
    (k' : B -> M S E C) s :
  bind (bind m k) k' s = bind m (fun a => bind (k a) k') s.
Proof. unfold bind. by destruct (m s) as [[e|a] s1]. Qed.

Lemma for_loop_run_app f g l1 l2 : forall acc s,
  for_loop_run f g acc (l1 ++ l2) s =
  bind (for_loop_run f g acc l1) (fun acc' => for_loop_run f g acc' l2) s.
Proof.
  induction l1 as [|x l1 IH]; intros acc s; [done|].
  cbn [for_loop_run app]. rewrite bind_assoc.
  destruct (f x s) as [[e|[|]] s1] eqn:Hf.
  - by rewrite !(bind_raise _ _ _ _ _ Hf).
  - rewrite !(bind_return _ _ _ _ _ Hf), bind_assoc.
    destruct (g x s1) as [[e|u] s2] eqn:Hg.
    + by rewrite !(bind_raise _ _ _ _ _ Hg).
    + rewrite !(bind_return _ _ _ _ _ Hg). apply IH.
  - rewrite !(bind_return _ _ _ _ _ Hf). apply IH.
Qed.

(** On callbacks without effects the loop is the pure loop and the state
    is not touched. *)
Lemma for_loop_run_pure (p : T -> bool) (t : T -> U) l : forall acc s,
  for_loop_run (E:=E) (pure_callback p) (pure_callback t) acc l s =
  (Return (for_loop p t acc l), s).
Proof.
  induction l as [|x l IH]; intros acc s; [done|].
  simpl. unfold bind, pure_callback, ret. destruct (p x); apply IH.
Qed.

Lemma process_data_run_pure (p : T -> bool) (t : T -> U) l s :
  process_data_run (E:=E) l (pure_callback p) (pure_callback t) s =
  (Return (process_data l p t), s).
Proof. apply for_loop_run_pure. Qed.
End RunFacts.

(** ** Helper lemmas on the loop over the store *)

Section HeapFacts.
Context {V : Type}.
Implicit Types (p : V -> bool) (t : V -> V) (h : heap V) (l acc : list V).

Lemma list_append_lookup h o acc x :
  h !! o = Some acc -> list_append h o x = Some (<[o := acc ++ [x]]> h).
Proof. unfold list_append. by intros ->. Qed.

(** When the accumulator is not the input, the loop from position [i] ends
    within [length l - i] steps after the last test, and all it does to the
    store is to leave in the accumulator what the pure loop computes on the
    rest of the input. *)
Lemma for_loop_heap_spec p t (d o : loc) l : forall fuel h acc i,
  d <> o -> h !! d = Some l -> h !! o = Some acc ->
  length l - i < fuel ->
  for_loop_heap p t fuel h d o i =
  Some (<[o := for_loop p t acc (drop i l)]> h).
Proof.
  induction fuel as [|fuel IH]; intros h acc i Hdo Hd Ho Hfuel; [lia|].
  cbn [for_loop_heap]. rewrite Hd.
  destruct (l !! i) as [item|] eqn:Hi.
  - pose proof (lookup_lt_Some _ _ _ Hi) as Hlt.
    rewrite (drop_S _ _ _ Hi). cbn [for_loop].
    destruct (p item).
    + rewrite (list_append_lookup _ _ _ _ Ho).
      rewrite (IH _ (acc ++ [t item]) (Datatypes.S i)).
      * by rewrite insert_insert_eq.
      * done.
      * by rewrite lookup_insert_ne.
      * by rewrite lookup_insert_eq.
      * lia.
    + apply IH; [done..|lia].
  - apply lookup_ge_None in Hi. rewrite drop_ge by done.
    cbn [for_loop]. by rewrite insert_id.
Qed.

Lemma process_data_heap_spec p t fuel h (d : loc) l :
  h !! d = Some l -> length l < fuel ->
  process_data_heap p t fuel h d =
  Some (<[fresh (dom h) := process_data l p t]> h, fresh (dom h)).
Proof.
  intros Hd Hfuel. unfold process_data_heap.
  assert (h !! fresh (dom h) = None) as Hfresh.
  { apply not_elem_of_dom, is_fresh. }
  assert (d <> fresh (dom h)) as Hne by congruence.
  rewrite (for_loop_heap_spec p t d _ l _ _ [] 0).
  - by rewrite insert_insert_eq.
  - done.
  - by rewrite lookup_insert_ne.
  - by rewrite lookup_insert_eq.
  - lia.
Qed.

(** Had the accumulator been the input object itself, an accepting
    predicate would make the list grow under its own iterator and the loop
    would not end: that the accumulator is a new object matters. *)
Lemma for_loop_heap_alias p t (d : loc) : forall fuel h l i,
  (forall x, p x = true) -> h !! d = Some l -> i < length l ->
  for_loop_heap p t fuel h d d i = None.
Proof.
  induction fuel as [|fuel IH]; intros h l i Hp Hd Hi; [done|].
  cbn [for_loop_heap]. rewrite Hd.
  destruct (lookup_lt_is_Some_2 l i Hi) as [item ->].
  rewrite Hp, (list_append_lookup _ _ _ _ Hd).
  apply (IH _ (l ++ [t item])); [done|apply lookup_insert_eq|].
  rewrite length_app. simpl. lia.
Qed.
End HeapFacts.

(** ** The pipeline on pure callbacks *)

Section PipelineSpec.
Context {T U : Type}.
Implicit Types (data xs ys : list T) (p : T -> bool) (t : T -> U).

(** C9: [process_data] distributes over concatenation of its input:
    [process_data (xs ++ ys) p t] is [process_data xs p t] followed by
    [process_data ys p t]. *)
Theorem process_data_app xs ys p t :
  process_data (xs ++ ys) p t = process_data xs p t ++ process_data ys p t.
Proof. apply process_data_concat. Qed.

(** C1: the output holds exactly the transformed accepted elements in input
    order: it has one entry per accepted element, and its [i]-th entry is
    [transform_func] of the [i]-th element of the input that [filter_func]
    accepts. *)
Theorem process_data_correct data p t :
  process_data data p t = List.map t (List.filter p data) /\
  length (process_data data p t) = length (List.filter p data) /\
  forall i : nat, process_data data p t !! i = t <$> List.filter p data !! i.
Proof.
  pose proof (process_data_map_filter p t data) as Heq.
  split; [done|]. rewrite Heq. split.
  - apply length_map.
  - intros i. apply list_lookup_fmap.
Qed.

(** Order of the output: accepted elements at positions [i < j] of the
    input have their images at positions [i' < j'] of the output. *)
Lemma process_data_order data p t i j a b :
  i < j -> data !! i = Some a -> data !! j = Some b ->
  p a = true -> p b = true ->
  exists i' j', i' < j' /\
    process_data data p t !! i' = Some (t a) /\
    process_data data p t !! j' = Some (t b).
Proof.
  intros Hij Ha Hb Hpa Hpb.
  rewrite <- (take_drop_middle _ _ _ Ha). rewrite process_data_concat.
  rewrite process_data_cons, Hpa.
  assert (drop (Datatypes.S i) data !! (j - Datatypes.S i) = Some b) as Hb'.
  { rewrite lookup_drop. rewrite <- Hb. f_equal. lia. }
  rewrite <- (take_drop_middle _ _ _ Hb'). rewrite process_data_concat.
  rewrite process_data_cons, Hpb.
  set (l1 := process_data (take i data) p t).
  set (l2 := process_data (take _ (drop _ data)) p t).
  exists (length l1), (length l1 + Datatypes.S (length l2)).
  split; [lia|]. split.
  - by rewrite list_lookup_middle.
  - rewrite lookup_app_r by lia.
    replace (length l1 + Datatypes.S (length l2) - length l1)
      with (Datatypes.S (length l2)) by lia.
    by apply (list_lookup_middle (t a :: l2)).
Qed.

(** C4: on the empty input the result is the empty sequence, whatever the
    predicate and the transform are, also when they may raise. *)
Theorem process_data_nil {S E : Type} p t
    (f : T -> M S E bool) (g : T -> M S E U) (s : S) :
  process_data [] p t = [] /\
  process_data_run [] f g s = (Return [], s).
Proof. split; reflexivity. Qed.

(** C3: with a predicate that rejects every element the result is the empty
    sequence for every transform; the call returns a sequence, never an
    absent value, even when the transform would raise. *)
Theorem process_data_all_rejected {S E : Type} data p t
    (g : T -> M S E U) (s : S) :
  (forall x, In x data -> p x = false) ->
  process_data data p t = [] /\
  process_data_run data (pure_callback p) g s = (Return [], s).
Proof.
  intros Hp. split.
  - induction data as [|x data IH]; [done|].
    rewrite process_data_cons, (Hp x) by (by left).
    apply IH. intros y Hy. apply Hp. by right.
  - unfold process_data_run. generalize (@nil U) as acc.
    induction data as [|x data IH]; intros acc; [done|].
    cbn [for_loop_run]. unfold bind at 1, pure_callback, ret.
    rewrite (Hp x) by (by left).
    apply IH. intros y Hy. apply Hp. by right.
Qed.
End PipelineSpec.

(** C2: with a predicate that holds of every element and the identity as
    transform, the result equals the input. *)
Theorem process_data_identity {T : Type} (data : list T)
    (p : T -> bool) (t : T -> T) :
  (forall x, In x data -> p x = true) ->
  (forall x, In x data -> t x = x) ->
  process_data data p t = data.
Proof.
  intros Hp Ht. induction data as [|x data IH]; [done|].
  rewrite process_data_cons, (Hp x), (Ht x) by (by left).
  f_equal. apply IH; intros y Hy; [apply Hp|apply Ht]; by right.
Qed.

(** C8: [process_data([1,2,3,4,5], lambda x: x%2==0, lambda x: x*10)] is
    [[20, 40]]; Python's [%] on integers is [Z.modulo]. *)
Theorem process_data_evens_times_ten :
  process_data [1; 2; 3; 4; 5]%Z (fun x => (x mod 2 =? 0)%Z)
    (fun x => (x * 10)%Z) = [20; 40]%Z.
Proof. reflexivity. Qed.

(** ** The pipeline on callbacks that raise *)

Section FailureSpec.
Context {S E T U : Type}.
Implicit Types (f : T -> M S E bool) (g : T -> M S E U).
Implicit Types (data pre post : list T) (s : S).

Lemma for_loop_run_succeeds f g data :
  (forall x s, In x data -> exists b s', f x s = (Return b, s')) ->
  (forall x s s', In x data -> f x s = (Return true, s') ->
     exists u s'', g x s' = (Return u, s'')) ->
  forall acc s, exists out s',
    for_loop_run f g acc data s = (Return out, s').
Proof.
  induction data as [|x data IH]; intros Hf Hg acc s.
  - by exists acc, s.
  - assert (forall acc s, exists out s',
              for_loop_run f g acc data s = (Return out, s')) as IH'.
    { apply IH.
      - intros y s0 Hy. apply Hf. by right.
      - intros y s0 s0' Hy Hfy. apply (Hg y s0 s0'); [by right|done]. }
    cbn [for_loop_run].
    destruct (Hf x s) as (b & s1 & Hb); [by left|].
    rewrite (bind_return _ _ _ _ _ Hb). destruct b; [|apply IH'].
    destruct (Hg x s s1) as (u & s2 & Hu); [by left|done|].
    rewrite (bind_return _ _ _ _ _ Hu). apply IH'.
Qed.

(** C5: [transform_func] is applied to accepted elements only: when the
    predicate does not raise and the transform returns on every element that
    the predicate accepts, the call returns a sequence, whatever the
    transform would do on a rejected element. *)
Theorem process_data_run_accepted_only f g data :
  (forall x s, In x data -> exists b s', f x s = (Return b, s')) ->
  (forall x s s', In x data -> f x s = (Return true, s') ->
     exists u s'', g x s' = (Return u, s'')) ->
  forall s, exists out s', process_data_run data f g s = (Return out, s').
Proof.
  intros Hf Hg s. by apply for_loop_run_succeeds.
Qed.

(** C6: an exception of a callback ends the call at once with that very
    exception.  When the loop has passed [pre] and then, on [x], the
    predicate raises [e], or accepts [x] and the transform raises [e], the
    call on [pre ++ x :: post] raises [e] in the state in which the callback
    raised: nothing of [post] is evaluated and no sequence is returned. *)
Theorem process_data_run_raises f g pre x post s out s1 e s2 :
  process_data_run pre f g s = (Return out, s1) ->
  f x s1 = (Raise e, s2) \/
    (exists s1', f x s1 = (Return true, s1') /\ g x s1' = (Raise e, s2)) ->
  process_data_run (pre ++ x :: post) f g s = (Raise e, s2).
Proof.
  unfold process_data_run. intros Hpre Hx.
  rewrite for_loop_run_app, (bind_return _ _ _ _ _ Hpre).
  cbn [for_loop_run].
  destruct Hx as [Hf|(s1' & Hf & Hg)].
  - by apply bind_raise.
  - rewrite (bind_return _ _ _ _ _ Hf). by apply bind_raise.
Qed.
End FailureSpec.

(** ** The pipeline on list objects *)

(** C7: the call leaves the input object as it was, returns a reference to
    an object that did not exist before, hence other than the input, and
    changes nothing else in the store; it keeps nothing between calls: a
    second call on the same input builds an equal sequence in yet another
    new object and leaves the first result alone. *)
Theorem process_data_heap_frame {V : Type} (p : V -> bool) (t : V -> V)
    (fuel : nat) (h : heap V) (d : loc) (l : list V) :
  h !! d = Some l -> length l < fuel ->
  exists (h' : heap V) (o : loc),
    process_data_heap p t fuel h d = Some (h', o) /\
    h' !! d = Some l /\
    h !! o = None /\ o <> d /\
    h' !! o = Some (process_data l p t) /\
    (forall k : loc, k <> o -> h' !! k = h !! k) /\
    exists (h'' : heap V) (o' : loc),
      process_data_heap p t fuel h' d = Some (h'', o') /\
      o' <> o /\ o' <> d /\
      h'' !! o' = Some (process_data l p t) /\
      h'' !! o = Some (process_data l p t) /\
      h'' !! d = Some l.
Proof.
  intros Hd Hfuel.
  set (o := fresh (dom h)).
  set (h' := <[o := process_data l p t]> h).
  assert (h !! o = None) as Ho by apply not_elem_of_dom, is_fresh.
  assert (o <> d) as Hod by congruence.
  assert (h' !! d = Some l) as Hd' by (unfold h'; by rewrite lookup_insert_ne).
  assert (h' !! o = Some (process_data l p t)) as Ho'
    by apply lookup_insert_eq.
  set (o' := fresh (dom h')).
  assert (h' !! o' = None) as Hfresh' by apply not_elem_of_dom, is_fresh.
  assert (o' <> o) as Hoo' by congruence.
  assert (o' <> d) as Hod' by congruence.
  exists h', o. split; [by apply process_data_heap_spec|].
  do 4 (split; [done|]). split.
  { intros k Hk. unfold h'. by rewrite lookup_insert_ne. }
  exists (<[o' := process_data l p t]> h'), o'.
  split; [by apply process_data_heap_spec|].
  do 2 (split; [done|]).
  rewrite lookup_insert_eq, !lookup_insert_ne by done. done.
Qed.

(** ** The class [DataProcessor] *)

Lemma getattr_validate_undefined (self : DataProcessor.instance) :
  DataProcessor.attrs self !! "validate" = None ->
  DataProcessor.getattr "validate" self =
    (Raise (DataProcessor.AttributeError "validate"), self).
Proof.
  intros Hnone. unfold DataProcessor.getattr.
  rewrite Hnone. reflexivity.
Qed.

(** C10, as the claim has it, fails: it speaks of every instance, and on an
    instance on which [validate] is defined, here by a subclass whose
    [validate] rejects every item, [process] on a non-empty input raises
    nothing and returns [None]. *)
Lemma DataProcessor_process_with_validate :
  DataProcessor.process DataProcessor.call_rejecting
    [DataProcessor.VInt 1] DataProcessor.with_validate =
    (Return DataProcessor.VNone, DataProcessor.with_validate) /\
  DataProcessor.process DataProcessor.call_rejecting
    [DataProcessor.VInt 1] DataProcessor.with_validate <>
    (Raise (DataProcessor.AttributeError "validate"),
     DataProcessor.with_validate).
Proof.
  assert (DataProcessor.process DataProcessor.call_rejecting
            [DataProcessor.VInt 1] DataProcessor.with_validate =
          (Return DataProcessor.VNone, DataProcessor.with_validate)) as Hrun
    by reflexivity.
  split; [exact Hrun|]. rewrite Hrun. discriminate.
Qed.

(** C10, amended: on every instance on which no attribute [validate] is
    defined, neither set on the object nor by a subclass, as is every
    instance that [__init__] has made, [process] on a non-empty input
    raises [AttributeError] for [validate] at the first element and the
    instance, [results] included, is as before the call; on the empty input
    [process] returns [None] and the instance is as before the call. *)
Theorem DataProcessor_process_validate_undefined
    (call : DataProcessor.value ->
            DataProcessor.value ->
            M DataProcessor.instance DataProcessor.exn DataProcessor.value)
    (self : DataProcessor.instance)
    (item : DataProcessor.value) (rest : list DataProcessor.value) :
  DataProcessor.attrs self !! "validate" = None ->
  DataProcessor.process call (item :: rest) self =
    (Raise (DataProcessor.AttributeError "validate"), self) /\
  DataProcessor.process call [] self = (Return DataProcessor.VNone, self).
Proof.
  intros Hnone. split; [|reflexivity].
  unfold DataProcessor.process. cbn [DataProcessor.process_loop].
  apply bind_raise. by apply getattr_validate_undefined.
Qed.

Lemma DataProcessor_process_validate_undefined_witness :
  DataProcessor.process DataProcessor.call_rejecting
    [DataProcessor.VInt 1; DataProcessor.VInt 2]
    (DataProcessor.__init__ (DataProcessor.VStr "cfg")) =
    (Raise (DataProcessor.AttributeError "validate"),
     DataProcessor.__init__ (DataProcessor.VStr "cfg")) /\
  DataProcessor.process DataProcessor.call_rejecting []
    (DataProcessor.__init__ (DataProcessor.VStr "cfg")) =
    (Return DataProcessor.VNone,
     DataProcessor.__init__ (DataProcessor.VStr "cfg")).
Proof.
  apply DataProcessor_process_validate_undefined.
  reflexivity.
Defined.

(** ** The theorems at concrete inputs *)

Lemma process_data_identity_witness :
  process_data [3; 1; 2]%Z (fun x => (0 <? x)%Z) Z.abs = [3; 1; 2]%Z.
Proof.
  apply process_data_identity; intros x [<-|[<-|[<-|[]]]]; reflexivity.
Defined.

Lemma process_data_all_rejected_witness :
  process_data [1; 3; 5]%Z is_even times_ten = [] /\
  process_data_run [1; 3; 5]%Z (pure_callback is_even)
    (times_ten_logged 3) [] = (Return [], []).
Proof.
  apply process_data_all_rejected.
  intros x [<-|[<-|[<-|[]]]]; reflexivity.
Defined.

Lemma process_data_run_accepted_only_witness :
  exists out log,
    process_data_run [1; 2; 3; 4]%Z (pure_callback is_even)
      (times_ten_logged 3) [] = (Return out, log).
Proof.
  apply process_data_run_accepted_only.
  - intros x s [<-|[<-|[<-|[<-|[]]]]]; eexists _, _; reflexivity.
  - intros x s s' [<-|[<-|[<-|[<-|[]]]]] Hacc;
      try discriminate Hacc; eexists _, _; reflexivity.
Defined.

Lemma process_data_run_raises_witness :
  process_data_run [1; 2; 3; 4; 5]%Z (pure_callback is_even)
    (times_ten_logged 4) [] = (Raise "boom", [2; 4]%Z).
Proof.
  apply (process_data_run_raises _ _ [1; 2; 3]%Z 4%Z [5]%Z
           [] [20]%Z [2]%Z "boom" [2; 4]%Z).
  - reflexivity.
  - right. exists [2]%Z. split; reflexivity.
Defined.

Lemma process_data_heap_frame_witness :
  exists (h' : heap Z) (o : loc),
    process_data_heap is_even times_ten 6
      {[ 1%positive := [1; 2; 3; 4; 5]%Z ]} 1%positive = Some (h', o) /\
    h' !! 1%positive = Some [1; 2; 3; 4; 5]%Z /\
    o <> 1%positive /\
    h' !! o = Some [20; 40]%Z.
Proof.
  destruct (process_data_heap_frame is_even times_ten 6
              {[ 1%positive := [1; 2; 3; 4; 5]%Z ]} 1%positive
              [1; 2; 3; 4; 5]%Z)
    as (h' & o & Hcall & Hin & _ & Hne & Hout & _).
  - reflexivity.
  - simpl. lia.
  - exists h', o. repeat split; assumption.
Defined.

(** ** Further properties of the pipeline on pure callbacks *)

Section PipelineMore.
Context {T U : Type}.
Implicit Types (data : list T) (p : T -> bool) (t : T -> U).

(** X1: two pipelines in a row are one pipeline: feeding the output of
    [process_data data p1 t1] to a second call with [p2] and [t2] gives what
    a single call gives with the predicate [p1 x and p2 (t1 x)] and the
    transform [t2 (t1 x)]. *)
Theorem process_data_fusion {W : Type} data p1 (t1 : T -> U)
    (p2 : U -> bool) (t2 : U -> W) :
  process_data (process_data data p1 t1) p2 t2 =
  process_data data (fun x => p1 x && p2 (t1 x)) (fun x => t2 (t1 x)).
Proof.
  induction data as [|x data IH]; [done|].
  rewrite !process_data_cons. destruct (p1 x); cbn [andb]; [|done].
  rewrite process_data_cons. destruct (p2 (t1 x)); by rewrite IH.
Qed.

(** X2: a value occurs in the output exactly when it is the transform of an
    element of the input that the predicate accepts. *)
Theorem process_data_In data p t (y : U) :
  In y (process_data data p t) <->
  exists x, In x data /\ p x = true /\ y = t x.
Proof.
  rewrite process_data_map_filter, in_map_iff. split.
  - intros (x & <- & Hx). apply filter_In in Hx as [Hin Hp]. by exists x.
  - intros (x & Hin & Hp & ->). exists x. split; [done|].
    apply filter_In. done.
Qed.

(** X3: the output is never longer than the input, and it is as long as
    the input exactly when the predicate accepts every element. *)
Theorem process_data_length data p t :
  length (process_data data p t) <= length data /\
  (length (process_data data p t) = length data <->
   forall x, In x data -> p x = true).
Proof.
  induction data as [|x data [IHle IHeq]].
  - split; [done|]. split; [by intros _ x []|done].
  - rewrite process_data_cons. destruct (p x) eqn:Hpx; cbn [length].
    + split; [lia|]. split.
      * intros Hlen y [<-|Hy]; [done|]. apply IHeq; [lia|done].
      * intros Hall. f_equal. apply IHeq. intros y Hy. apply Hall. by right.
    + split; [lia|]. split; [lia|].
      intros Hall. rewrite Hall in Hpx by (by left). done.
Qed.

(** X5: reversing the input reverses the output. *)
Theorem process_data_rev data p t :
  process_data (rev data) p t = rev (process_data data p t).
Proof.
  induction data as [|x data IH]; [done|].
  cbn [rev]. rewrite process_data_concat, IH, !process_data_cons.
  destruct (p x); cbn [rev].
  - done.
  - by rewrite app_nil_r.
Qed.
End PipelineMore.

(** X4: the result depends on the callbacks only through the values of the
    predicate on the elements of the input and the values of the transform
    on the accepted ones. *)
Theorem process_data_ext {T U : Type} (data : list T)
    (p p' : T -> bool) (t t' : T -> U) :
  (forall x, In x data -> p x = p' x) ->
  (forall x, In x data -> p x = true -> t x = t' x) ->
  process_data data p t = process_data data p' t'.
Proof.
  intros Hp Ht. induction data as [|x data IH]; [done|].
  rewrite !process_data_cons, <- (Hp x) by (by left).
  rewrite IH.
  - destruct (p x) eqn:Hpx; [|done]. by rewrite (Ht x) by (done || by left).
  - intros y Hy. apply Hp. by right.
  - intros y Hy. apply Ht. by right.
Qed.

Lemma process_data_ext_witness :
  process_data [1; 2; 3; 4]%Z is_even times_ten =
  process_data [1; 2; 3; 4]%Z (fun x => (x =? 2)%Z || (x =? 4)%Z)
    (fun x => if (x =? 1)%Z then 0%Z else (10 * x)%Z).
Proof.
  apply process_data_ext.
  - intros x [<-|[<-|[<-|[<-|[]]]]]; reflexivity.
  - intros x [<-|[<-|[<-|[<-|[]]]]] Hacc; try discriminate Hacc; reflexivity.
Defined.

(** ** Further properties of the pipeline on callbacks with effects *)

Section RunMore.
Context {S E T U : Type}.
Implicit Types (f : T -> M S E bool) (g : T -> M S E U).
Implicit Types (data pre post : list T) (acc out : list U) (s : S).

Lemma bind_ext {A B} (m : M S E A) (k k' : A -> M S E B) s :
  (forall a s1, k a s1 = k' a s1) -> bind m k s = bind m k' s.
Proof. intros Hk. unfold bind. destruct (m s) as [[e|a] s1]; [done|apply Hk]. Qed.

(** The accumulator is a prefix of what the loop returns, and the loop does
    not look at it. *)
Lemma for_loop_run_acc f g data : forall acc s,
  for_loop_run f g acc data s =
  bind (for_loop_run f g [] data) (fun out => ret (acc ++ out)) s.
Proof.
  induction data as [|x data IH]; intros acc s.
  - cbn [for_loop_run]. unfold bind, ret. by rewrite app_nil_r.
  - cbn [for_loop_run]. rewrite bind_assoc.
    destruct (f x s) as [[e|[|]] s1] eqn:Hf.
    + by rewrite !(bind_raise _ _ _ _ _ Hf).
    + rewrite !(bind_return _ _ _ _ _ Hf), bind_assoc.
      destruct (g x s1) as [[e|u] s2] eqn:Hg.
      * by rewrite !(bind_raise _ _ _ _ _ Hg).
      * rewrite !(bind_return _ _ _ _ _ Hg).
        rewrite (IH (acc ++ [u])). unfold bind at 2.
        cbn [app]. rewrite (IH [u]). unfold bind, ret.
        destruct (for_loop_run f g [] data s2) as [[e|out] s3]; [done|].
        by rewrite <- app_assoc.
    + rewrite !(bind_return _ _ _ _ _ Hf). apply IH.
Qed.

(** X7: with callbacks that may raise and change state, the call on
    [xs ++ ys] is the call on [xs] followed, in the state it leaves, by the
    call on [ys], the two outputs appended; an exception of the first part
    ends the whole. *)
Theorem process_data_run_app f g (xs ys : list T) s :
  process_data_run (xs ++ ys) f g s =
  (out1 <- process_data_run xs f g ;;
   out2 <- process_data_run ys f g ;;
   ret (out1 ++ out2))%exc s.
Proof.
  unfold process_data_run. rewrite for_loop_run_app.
  apply bind_ext. intros out1 s1. apply for_loop_run_acc.
Qed.

Lemma for_loop_run_raise_origin f g data : forall acc s e s',
  for_loop_run f g acc data s = (Raise e, s') ->
  exists pre x post out s1,
    data = pre ++ x :: post /\
    for_loop_run f g acc pre s = (Return out, s1) /\
    (f x s1 = (Raise e, s') \/
     exists s1', f x s1 = (Return true, s1') /\ g x s1' = (Raise e, s')).
Proof.
  induction data as [|x data IH]; intros acc s e s' Hrun; [done|].
  cbn [for_loop_run] in Hrun.
  destruct (f x s) as [[e0|[|]] s1] eqn:Hf.
  - rewrite (bind_raise _ _ _ _ _ Hf) in Hrun.
    injection Hrun as -> ->.
    exists [], x, data, acc, s. split; [done|]. split; [done|by left].
  - rewrite (bind_return _ _ _ _ _ Hf) in Hrun.
    destruct (g x s1) as [[e0|u] s2] eqn:Hg.
    + rewrite (bind_raise _ _ _ _ _ Hg) in Hrun.
      injection Hrun as -> ->.
      exists [], x, data, acc, s. split; [done|]. split; [done|].
      right. by exists s1.
    + rewrite (bind_return _ _ _ _ _ Hg) in Hrun.
      destruct (IH _ _ _ _ Hrun) as (pre & y & post & out & s3 & -> & Hpre & Hy).
      exists (x :: pre), y, post, out, s3. split; [done|]. split; [|done].
      cbn [for_loop_run].
      by rewrite (bind_return _ _ _ _ _ Hf), (bind_return _ _ _ _ _ Hg).
  - rewrite (bind_return _ _ _ _ _ Hf) in Hrun.
    destruct (IH _ _ _ _ Hrun) as (pre & y & post & out & s3 & -> & Hpre & Hy).
    exists (x :: pre), y, post, out, s3. split; [done|]. split; [|done].
    cbn [for_loop_run]. by rewrite (bind_return _ _ _ _ _ Hf).
Qed.

(** X8: the call raises nothing of its own: when it raises [e], the input
    splits into a part that the loop passed without exception, an element
    on which the predicate raised [e], or which the predicate accepted and
    on which the transform raised [e], and a rest; the state is the one in
    which that callback raised. *)
Theorem process_data_run_raise_origin f g data s e s' :
  process_data_run data f g s = (Raise e, s') ->
  exists pre x post out s1,
    data = pre ++ x :: post /\
    process_data_run pre f g s = (Return out, s1) /\
    (f x s1 = (Raise e, s') \/
     exists s1', f x s1 = (Return true, s1') /\ g x s1' = (Raise e, s')).
Proof. apply for_loop_run_raise_origin. Qed.

Lemma process_data_run_cons f g x data s :
  process_data_run (x :: data) f g s =
  (accepted <- f x ;;
   if accepted : bool then
     u <- g x ;;
     out <- process_data_run data f g ;;
     ret (u :: out)
   else process_data_run data f g)%exc s.
Proof.
  unfold process_data_run. cbn [for_loop_run].
  apply bind_ext. intros [|] s1; [|done].
  apply bind_ext. intros u s2. cbn [app]. apply for_loop_run_acc.
Qed.

Lemma process_data_run_entry f g data : forall s out s' i u,
  process_data_run data f g s = (Return out, s') ->
  out !! i = Some u ->
  exists pre x post out_pre out_post s1 s2 s3,
    data = pre ++ x :: post /\
    out = out_pre ++ u :: out_post /\
    length out_pre = i /\
    process_data_run pre f g s = (Return out_pre, s1) /\
    f x s1 = (Return true, s2) /\
    g x s2 = (Return u, s3) /\
    process_data_run post f g s3 = (Return out_post, s').
Proof.
  induction data as [|x data IH]; intros s out s' i u Hrun Hi.
  - injection Hrun as <- <-. done.
  - rewrite process_data_run_cons in Hrun.
    destruct (f x s) as [[e|[|]] s2] eqn:Hf.
    + by rewrite (bind_raise _ _ _ _ _ Hf) in Hrun.
    + rewrite (bind_return _ _ _ _ _ Hf) in Hrun.
      destruct (g x s2) as [[e|u0] s3] eqn:Hg.
      { by rewrite (bind_raise _ _ _ _ _ Hg) in Hrun. }
      rewrite (bind_return _ _ _ _ _ Hg) in Hrun.
      destruct (process_data_run data f g s3) as [[e|out'] s4] eqn:Hrest.
      { by rewrite (bind_raise _ _ _ _ _ Hrest) in Hrun. }
      rewrite (bind_return _ _ _ _ _ Hrest) in Hrun.
      injection Hrun as <- <-.
      destruct i as [|i].
      * injection Hi as <-.
        exists [], x, data, [], out', s, s2, s3. by repeat split.
      * destruct (IH _ _ _ _ _ Hrest Hi)
          as (pre & y & post & out_pre & out_post & s1 & s5 & s6 &
              -> & -> & <- & Hpre & Hfy & Hgy & Hpost).
        exists (x :: pre), y, post, (u0 :: out_pre), out_post, s1, s5, s6.
        repeat split; try done.
        rewrite process_data_run_cons.
        rewrite (bind_return _ _ _ _ _ Hf), (bind_return _ _ _ _ _ Hg).
        by rewrite (bind_return _ _ _ _ _ Hpre).
    + rewrite (bind_return _ _ _ _ _ Hf) in Hrun.
      destruct (IH _ _ _ _ _ Hrun Hi)
        as (pre & y & post & out_pre & out_post & s1 & s5 & s6 &
            -> & -> & <- & Hpre & Hfy & Hgy & Hpost).
      exists (x :: pre), y, post, out_pre, out_post, s1, s5, s6.
      repeat split; try done.
      rewrite process_data_run_cons. by rewrite (bind_return _ _ _ _ _ Hf).
Qed.

(** X9: where an entry of the output comes from, with callbacks that may
    have effects.  When the call returns [out] and [u] is its entry number
    [i], the input splits around an element [x] into [pre], [x] and [post]
    such that, in this very run: the call on [pre] from the initial state
    returns the [i] entries before [u]; in the state it leaves, the
    predicate, called on [x], returns true; in the state the predicate
    leaves, the transform, called on [x], returns [u]; and the call on
    [post], from the state the transform leaves, returns the entries after
    [u] and ends in the final state. *)
Theorem process_data_run_entries f g data s out s' (i : nat) (u : U) :
  process_data_run data f g s = (Return out, s') ->
  out !! i = Some u ->
  exists pre x post out_pre out_post s1 s2 s3,
    data = pre ++ x :: post /\
    out = out_pre ++ u :: out_post /\
    length out_pre = i /\
    process_data_run pre f g s = (Return out_pre, s1) /\
    f x s1 = (Return true, s2) /\
    g x s2 = (Return u, s3) /\
    process_data_run post f g s3 = (Return out_post, s').
Proof. apply process_data_run_entry. Qed.
End RunMore.

Lemma for_loop_run_trace {E T U : Type} (p : T -> bool) (t : T -> U)
    (data : list T) : forall acc log,
  for_loop_run (E:=E) (logged_filter p) (logged_transform t) acc data log =
  (Return (for_loop p t acc data), log ++ flat_map (calls_of p) data).
Proof.
  induction data as [|x data IH]; intros acc log.
  - cbn. by rewrite app_nil_r.
  - cbn [for_loop_run for_loop flat_map]. unfold bind at 1.
    unfold logged_filter at 1, calls_of at 1. destruct (p x).
    + unfold bind at 1, logged_transform at 1. rewrite IH.
      by rewrite <- !app_assoc.
    + rewrite IH. by rewrite <- !app_assoc.
Qed.

(** X6: the order of the calls.  With a predicate and a transform that
    record each call, one call of [process_data] visits the elements once,
    from first to last, calls the predicate on each, and calls the
    transform right after the predicate on the accepted ones and on no
    other; the result is that of the pure loop. *)
Theorem process_data_run_trace {E T U : Type} (p : T -> bool) (t : T -> U)
    (data : list T) (log : list (event T)) :
  process_data_run (E:=E) data (logged_filter p) (logged_transform t) log =
  (Return (process_data data p t), log ++ flat_map (calls_of p) data).
Proof. apply for_loop_run_trace. Qed.

Lemma process_data_run_raise_origin_witness :
  exists pre x post out s1,
    [1; 2; 3; 4; 5]%Z = pre ++ x :: post /\
    process_data_run pre (pure_callback is_even) (times_ten_logged 4) []
      = (Return out, s1) /\
    (pure_callback is_even x s1 = (Raise "boom", [2; 4]%Z) \/
     exists s1',
       pure_callback (E:=string) is_even x s1 = (Return true, s1') /\
       times_ten_logged 4 x s1' = (Raise "boom", [2; 4]%Z)).
Proof.
  apply (process_data_run_raise_origin (pure_callback is_even)
           (times_ten_logged 4) [1; 2; 3; 4; 5]%Z []).
  reflexivity.
Defined.

Lemma process_data_run_entries_witness :
  exists pre x post out_pre out_post s1 s2 s3,
    [3; 4; 5; 6]%Z = pre ++ x :: post /\
    [30; 50]%Z = out_pre ++ 50%Z :: out_post /\
    length out_pre = 1 /\
    process_data_run pre every_other (pure_callback times_ten) 0
      = (Return out_pre, s1) /\
    every_other x s1 = (Return true, s2) /\
    pure_callback (E:=string) times_ten x s2 = (Return 50%Z, s3) /\
    process_data_run post every_other (pure_callback times_ten) s3
      = (Return out_post, 4).
Proof.
  apply (process_data_run_entries every_other (pure_callback times_ten)
           [3; 4; 5; 6]%Z 0 [30; 50]%Z 4 1 50%Z).
  - reflexivity.
  - reflexivity.
Defined.

(** ** Further properties on list objects and of the class *)

(** X10: the result is a copy, not a view: after the call, appending to the
    returned list leaves the input list as it was, and appending to the
    input list leaves the returned list as it was, also when the two hold
    equal elements. *)
Theorem process_data_heap_copy {V : Type} (p : V -> bool) (t : V -> V)
    (fuel : nat) (h : heap V) (d : loc) (l : list V) (x : V) :
  h !! d = Some l -> length l < fuel ->
  exists (h' : heap V) (o : loc),
    process_data_heap p t fuel h d = Some (h', o) /\
    (exists h1 : heap V,
       list_append h' o x = Some h1 /\
       h1 !! d = Some l /\
       h1 !! o = Some (process_data l p t ++ [x])) /\
    (exists h2 : heap V,
       list_append h' d x = Some h2 /\
       h2 !! d = Some (l ++ [x]) /\
       h2 !! o = Some (process_data l p t)).
Proof.
  intros Hd Hfuel.
  set (o := fresh (dom h)).
  assert (h !! o = None) as Ho by apply not_elem_of_dom, is_fresh.
  assert (o <> d) as Hod by congruence.
  exists (<[o := process_data l p t]> h), o.
  split; [by apply process_data_heap_spec|]. split.
  - eexists. split.
    + apply list_append_lookup, lookup_insert_eq.
    + by rewrite lookup_insert_eq, !lookup_insert_ne.
  - eexists. split.
    + apply list_append_lookup. by rewrite lookup_insert_ne.
    + by rewrite lookup_insert_eq, lookup_insert_ne, lookup_insert_eq.
Qed.

Lemma process_data_heap_copy_witness :
  exists (h' : heap Z) (o : loc),
    process_data_heap (fun _ => true) (fun x => x) 4
      {[ 1%positive := [7; 8; 9]%Z ]} 1%positive = Some (h', o) /\
    (exists h1 : heap Z,
       list_append h' o 0%Z = Some h1 /\
       h1 !! 1%positive = Some [7; 8; 9]%Z /\
       h1 !! o = Some [7; 8; 9; 0]%Z) /\
    (exists h2 : heap Z,
       list_append h' 1%positive 0%Z = Some h2 /\
       h2 !! 1%positive = Some [7; 8; 9; 0]%Z /\
       h2 !! o = Some [7; 8; 9]%Z).
Proof.
  apply (process_data_heap_copy (fun _ => true) (fun x => x) 4
           {[ 1%positive := [7; 8; 9]%Z ]} 1%positive [7; 8; 9]%Z 0%Z).
  - reflexivity.
  - simpl. lia.
Defined.

(** X11: [process] never gets as far as calling anything or appending to
    [results]: on an instance made by [__init__] the outcome is the same
    whatever calling an object would do, and the instance is afterwards
    what [__init__] made it, with [results] empty, for every input. *)
Theorem DataProcessor_process_inert
    (call call' : DataProcessor.value ->
            DataProcessor.value ->
            M DataProcessor.instance DataProcessor.exn DataProcessor.value)
    (c : DataProcessor.value) (data : list DataProcessor.value) :
  DataProcessor.process call data (DataProcessor.__init__ c) =
    DataProcessor.process call' data (DataProcessor.__init__ c) /\
  (DataProcessor.process call data (DataProcessor.__init__ c)).2 =
    DataProcessor.__init__ c /\
  DataProcessor.results
    (DataProcessor.process call data (DataProcessor.__init__ c)).2 = [].
Proof. destruct data; repeat split; reflexivity. Qed.
